(** * PepLibGen.Analysis.chem_analysis: logP lookup and Lipinski's rules

    A shallow embedding of [src/PepLibGen/Analysis/chem_analysis.py].  The
    module orchestrates calls into rdkit: it parses a SMILES string, asks for
    four descriptors, compares them with fixed thresholds and formats
    messages.  rdkit itself is not part of the repository, so it enters the
    development as a record of functions ([Rdkit]); every call into it is
    written to a call log, which lets us state how often the parser runs. *)

From Stdlib Require Import ZArith List String Ascii Bool Lia.
From Stdlib Require Import DecimalString.
From Corelib Require Import PrimFloat.
From Stdlib Require DecimalZ DecimalPos.
From Corelib Require SpecFloat FloatOps FloatAxioms.
Import ListNotations.

Local Open Scope string_scope.
Local Open Scope list_scope.
Local Open Scope Z_scope.

Set Implicit Arguments.

(** ** Python values and exceptions *)

(** What a call produces: a value, or a raised exception of type [E]. *)
Inductive result (E A : Type) : Type :=
| Returns (a : A)
| Raises (e : E).
Arguments Returns {E A} a.
Arguments Raises {E A} e.

(** The exceptions that can leave the module: its own [SmilesError]
    (line 19), the builtin [Exception] that [lipinski_trial] raises itself
    (line 51), and whatever the library raises ([Foreign]). *)
Inductive exn (L : Type) : Type :=
| SmilesError (msg : string)
| Exception (msg : string)
| Foreign (e : L).
Arguments SmilesError {L} msg.
Arguments Exception {L} msg.
Arguments Foreign {L} e.

(** rdkit as the module sees it.  [Mol] is the opaque molecule handle; a
    Python variable holding a molecule may also hold [None], hence the
    [option Mol] arguments.  The descriptor counts are Python ints ([Z]), the
    weight and logP are Python floats (IEEE binary64, [float]).  Each function
    is deterministic and may raise one of the library's own errors;
    [derives_Exception] says whether such an error is an instance of
    [Exception] (everything but interpreter signals is). *)
Record Rdkit : Type := {
  Mol : Type;
  LibError : Type;
  derives_Exception : LibError -> bool;
  MolFromSmiles : string -> result LibError (option Mol);
  NumHDonors : option Mol -> result LibError Z;
  NumHAcceptors : option Mol -> result LibError Z;
  MolWt : option Mol -> result LibError float;
  MolLogP : option Mol -> result LibError float
}.

(** One entry of the call log. *)
Inductive call (M : Type) : Type :=
| call_MolFromSmiles (smiles : string)
| call_NumHDonors (mol : option M)
| call_NumHAcceptors (mol : option M)
| call_MolWt (mol : option M)
| call_MolLogP (mol : option M).
Arguments call_MolFromSmiles {M} smiles.
Arguments call_NumHDonors {M} mol.
Arguments call_NumHAcceptors {M} mol.
Arguments call_MolWt {M} mol.
Arguments call_MolLogP {M} mol.

Definition is_parse {M : Type} (c : call M) : bool :=
  match c with
  | call_MolFromSmiles _ => true
  | _ => false
  end.

(** How many times the parser was entered in a stretch of the log. *)
Definition parses {M : Type} (calls : list (call M)) : nat :=
  List.length (filter is_parse calls).

(** ["%s" % n] for a Python int: its decimal numeral. *)
Definition str_int (n : Z) : string :=
  NilZero.string_of_int (Z.to_int n).

(** [isinstance(e, Exception)], the test of [except Exception]. *)
Definition is_Exception {L : Type} (derives : L -> bool) (e : exn L) : bool :=
  match e with
  | SmilesError _ => true
  | Exception _ => true
  | Foreign x => derives x
  end.

(** The class of an exception, as far as this module tells classes apart. *)
Definition same_kind {L : Type} (e1 e2 : exn L) : bool :=
  match e1, e2 with
  | SmilesError _, SmilesError _ => true
  | Exception _, Exception _ => true
  | Foreign _, Foreign _ => true
  | _, _ => false
  end.

(** [x >= n] for a Python float [x] and a small int literal [n], which the
    comparison converts exactly; false when [x] is a NaN. *)
Definition float_ge (x n : float) : bool := (n <=? x)%float.

(** Truth value of a Python list: empty is false. *)
Definition truthy {A : Type} (l : list A) : bool :=
  match l with
  | [] => false
  | _ :: _ => true
  end.

(** ** The module, over a given rdkit *)

Section ChemAnalysis.

Variable rdkit : Rdkit.
(** ["%s" % x] for a Python float: the interpreter's [str] of a double. *)
Variable str_float : float -> string.

Abbreviation mol_t := (option (Mol rdkit)).
Abbreviation log_t := (list (call (Mol rdkit))).
Abbreviation exn_t := (exn (LibError rdkit)).

(** A computation: it extends the call log and returns or raises. *)
Definition Py (A : Type) : Type := log_t -> result exn_t A * log_t.

Definition ret {A : Type} (a : A) : Py A := fun log => (Returns a, log).

Definition raise {A : Type} (e : exn_t) : Py A := fun log => (Raises e, log).

Definition bind {A B : Type} (m : Py A) (k : A -> Py B) : Py B :=
  fun log =>
    match m log with
    | (Returns a, log') => k a log'
    | (Raises e, log') => (Raises e, log')
    end.

(** [try: body / except Exception as e: handler]. *)
Definition try_except_Exception {A : Type}
    (body : Py A) (handler : exn_t -> Py A) : Py A :=
  fun log =>
    match body log with
    | (Returns a, log') => (Returns a, log')
    | (Raises e, log') =>
        if is_Exception (derives_Exception rdkit) e
        then handler e log'
        else (Raises e, log')
    end.

(** [m] neither reads the log nor rewrites it: it only adds calls at the end,
    and what it adds and returns is the same after any history. *)
Definition framed {A : Type} (m : Py A) : Prop :=
  forall log, m log = (fst (m []), log ++ snd (m [])).

(** A call into the library: logged, then the library's answer. *)
Definition lib_call {A : Type} (c : call (Mol rdkit))
    (r : result (LibError rdkit) A) : Py A :=
  fun log =>
    (match r with
     | Returns a => Returns a
     | Raises e => Raises (Foreign e)
     end, log ++ [c]).

Definition Chem_MolFromSmiles (smiles : string) : Py mol_t :=
  lib_call (call_MolFromSmiles smiles) (MolFromSmiles rdkit smiles).
Definition Lipinski_NumHDonors (mol : mol_t) : Py Z :=
  lib_call (call_NumHDonors mol) (NumHDonors rdkit mol).
Definition Lipinski_NumHAcceptors (mol : mol_t) : Py Z :=
  lib_call (call_NumHAcceptors mol) (NumHAcceptors rdkit mol).
Definition Descriptors_MolWt (mol : mol_t) : Py float :=
  lib_call (call_MolWt mol) (MolWt rdkit mol).
Definition Crippen_MolLogP (mol : mol_t) : Py float :=
  lib_call (call_MolLogP mol) (MolLogP rdkit mol).

Notation "x <- m ;; k" := (bind m (fun x => k))
  (at level 61, m at next level, right associativity).

(** Lines 23-33. *)
Definition log_partition_coefficient (smiles : string) : Py float :=
  mol <- try_except_Exception
           (Chem_MolFromSmiles smiles)
           (fun e => raise (SmilesError (smiles ++ " returns a None molecule")%string)) ;;
  Crippen_MolLogP mol.

(** Lines 36-80.  The two lists are local to the call; [append] adds at
    the end. *)
Definition lipinski_trial (smiles : string) : Py (list string * list string) :=
  let passed : list string := [] in
  let failed : list string := [] in
  mol <- Chem_MolFromSmiles smiles ;;
  match mol with
  | None => raise (Exception (smiles ++ " is not a valid SMILES string")%string)
  | Some _ =>
      num_hdonors <- Lipinski_NumHDonors mol ;;
      num_hacceptors <- Lipinski_NumHAcceptors mol ;;
      mol_weight <- Descriptors_MolWt mol ;;
      mol_logp <- Crippen_MolLogP mol ;;
      let failed : list string := [] in
      let '(passed, failed) :=
        if num_hdonors >? 5
        then (passed, failed ++ [("Over 5 H-bond donors, found " ++ str_int num_hdonors)%string])
        else (passed ++ [("Found " ++ str_int num_hdonors ++ " H-bond donors")%string], failed) in
      let '(passed, failed) :=
        if num_hacceptors >? 10
        then (passed, failed ++ [("Over 10 H-bond acceptors, found " ++ str_int num_hacceptors)%string])
        else (passed ++ [("Found " ++ str_int num_hacceptors ++ " H-bond acceptors")%string], failed) in
      let '(passed, failed) :=
        if float_ge mol_weight 500
        then (passed, failed ++ [("Molecular weight over 500, calculated " ++ str_float mol_weight)%string])
        else (passed ++ [("Molecular weight: " ++ str_float mol_weight)%string], failed) in
      let '(passed, failed) :=
        if float_ge mol_logp 5
        then (passed, failed ++ [("Log partition coefficient over 5, calculated " ++ str_float mol_logp)%string])
        else (passed ++ [("Log partition coefficient: " ++ str_float mol_logp)%string], failed) in
      ret (passed, failed)
  end.

(** Lines 83-91. *)
Definition lipinski_pass (smiles : string) : Py bool :=
  r <- lipinski_trial smiles ;;
  let '(passed, failed) := r in
  if truthy failed then ret false else ret true.

End ChemAnalysis.

(** ** A stand-in library for the examples

    Three molecules, given by their descriptors (ethanol under two spellings
    of its SMILES string, the other two under a label), and one input on
    which the parser itself raises.  Every other string is rejected with
    [None], and a descriptor asked about [None] raises, as a Boost.Python
    signature mismatch does. *)
Module Sample.

Local Set Warnings "-inexact-float".

Inductive molecule : Type := ethanol | ethanol_again | boundary | heavy.

Inductive error : Type := ArgumentError | RuntimeError.

Definition parse (smiles : string) : result error (option molecule) :=
  if String.eqb smiles "CCO" then Returns (Some ethanol)
  else if String.eqb smiles "OCC" then Returns (Some ethanol_again)
  else if String.eqb smiles "BOUNDARY" then Returns (Some boundary)
  else if String.eqb smiles "HEAVY" then Returns (Some heavy)
  else if String.eqb smiles "!" then Raises RuntimeError
  else Returns None.

Definition donors (mol : option molecule) : result error Z :=
  match mol with
  | Some ethanol | Some ethanol_again => Returns 1
  | Some boundary => Returns 5
  | Some heavy => Returns 6
  | None => Raises ArgumentError
  end.

Definition acceptors (mol : option molecule) : result error Z :=
  match mol with
  | Some ethanol | Some ethanol_again => Returns 1
  | Some boundary => Returns 10
  | Some heavy => Returns 11
  | None => Raises ArgumentError
  end.

Definition weight (mol : option molecule) : result error float :=
  match mol with
  | Some ethanol | Some ethanol_again => Returns 46.069%float
  | Some boundary => Returns 500%float
  | Some heavy => Returns 1202.61%float
  | None => Raises ArgumentError
  end.

Definition logp (mol : option molecule) : result error float :=
  match mol with
  | Some ethanol | Some ethanol_again => Returns (-0.0014)%float
  | Some boundary => Returns 5%float
  | Some heavy => Returns 5.5%float
  | None => Raises ArgumentError
  end.

Definition rdkit : Rdkit := {|
  Mol := molecule;
  LibError := error;
  derives_Exception := fun _ => true;
  MolFromSmiles := parse;
  NumHDonors := donors;
  NumHAcceptors := acceptors;
  MolWt := weight;
  MolLogP := logp
|}.

(** The interpreter's rendering of the floats above; not a float printer. *)
Definition repr (x : float) : string :=
  if (x =? 46.069)%float then "46.069"
  else if (x =? -0.0014)%float then "-0.0014"
  else if (x =? 500)%float then "500.0"
  else if (x =? 5)%float then "5.0"
  else if (x =? 1202.61)%float then "1202.61"
  else if (x =? 5.5)%float then "5.5"
  else "nan".

End Sample.


(** ** Strings: inclusion and suffixes *)

(** [sub] occurs in [s]. *)
Definition includes (sub s : string) : Prop :=
  exists pre post : string, s = (pre ++ sub ++ post)%string.

(** The single-error reading of the specification: on [smiles] both
    [log_partition_coefficient] and [lipinski_trial] raise, and what they
    raise is of one kind. *)
Definition raise_one_kind (rdkit : Rdkit) (str_float : float -> string)
    (smiles : string) : Prop :=
  exists e1 e2,
    fst (log_partition_coefficient rdkit smiles []) = Raises e1
    /\ fst (lipinski_trial rdkit str_float smiles []) = Raises e2
    /\ same_kind e1 e2 = true.

(** ** Rule outcomes, as the specification words them

    The specification speaks of one outcome per rule, each passed or failed
    with a message, in the order donors, acceptors, weight, logP.  The
    code keeps two lists instead; [passed_of] and [failed_of] read the two
    lists off a sequence of outcomes. *)
Inductive verdict : Type := pass | fail.

Record RuleOutcome : Type := {
  status : verdict;
  message : string
}.

Definition is_pass (o : RuleOutcome) : bool :=
  match status o with pass => true | fail => false end.

Definition is_fail (o : RuleOutcome) : bool :=
  match status o with pass => false | fail => true end.

Definition passed_of (os : list RuleOutcome) : list string :=
  map message (filter is_pass os).

Definition failed_of (os : list RuleOutcome) : list string :=
  map message (filter is_fail os).

Section Rules.

Variable str_float : float -> string.

(** Rule 1: fail if the donor count is over 5. *)
Definition donors_rule (count : Z) : RuleOutcome :=
  if count >? 5
  then {| status := fail;
          message := "Over 5 H-bond donors, found " ++ str_int count |}
  else {| status := pass;
          message := "Found " ++ str_int count ++ " H-bond donors" |}.

(** Rule 2: fail if the acceptor count is over 10. *)
Definition acceptors_rule (count : Z) : RuleOutcome :=
  if count >? 10
  then {| status := fail;
          message := "Over 10 H-bond acceptors, found " ++ str_int count |}
  else {| status := pass;
          message := "Found " ++ str_int count ++ " H-bond acceptors" |}.

(** Rule 3: fail if the weight is 500 or more. *)
Definition weight_rule (w : float) : RuleOutcome :=
  if float_ge w 500
  then {| status := fail;
          message := "Molecular weight over 500, calculated " ++ str_float w |}
  else {| status := pass;
          message := "Molecular weight: " ++ str_float w |}.

(** Rule 4: fail if logP is 5 or more. *)
Definition logp_rule (p : float) : RuleOutcome :=
  if float_ge p 5
  then {| status := fail;
          message := "Log partition coefficient over 5, calculated " ++ str_float p |}
  else {| status := pass;
          message := "Log partition coefficient: " ++ str_float p |}.

Definition evaluateRules (d a : Z) (w p : float) : list RuleOutcome :=
  [donors_rule d; acceptors_rule a; weight_rule w; logp_rule p].

End Rules.

(** ** Reading the code's error paths *)

Section Failures.

Variable rdkit : Rdkit.

(** The error of the first descriptor call that raises on [m], in the order
    in which lines 53-56 make the calls; [None] when all four return. *)
Definition first_failure (m : Mol rdkit) : option (LibError rdkit) :=
  match NumHDonors rdkit (Some m) with
  | Raises e => Some e
  | Returns _ =>
      match NumHAcceptors rdkit (Some m) with
      | Raises e => Some e
      | Returns _ =>
          match MolWt rdkit (Some m) with
          | Raises e => Some e
          | Returns _ =>
              match MolLogP rdkit (Some m) with
              | Raises e => Some e
              | Returns _ => None
              end
          end
      end
  end.

End Failures.

(** How many of the four thresholds the measured values violate. *)
Definition violations (d a : Z) (w p : float) : nat :=
  (Nat.b2n (d >? 5) + Nat.b2n (a >? 10)
   + Nat.b2n (float_ge w 500) + Nat.b2n (float_ge p 5))%nat.

(** ** A second stand-in library, with failures

    One molecule whose weight cannot be computed, one whose weight and logP
    are NaN, and an input on which the parser is interrupted by a signal that
    is not an [Exception]. *)
Module Faulty.

Inductive molecule : Type := unweighable | unmeasured.

Inductive error : Type := ValueError | KeyboardInterrupt.

Definition derives (e : error) : bool :=
  match e with
  | ValueError => true
  | KeyboardInterrupt => false
  end.

Definition parse (smiles : string) : result error (option molecule) :=
  if String.eqb smiles "UNWEIGHABLE" then Returns (Some unweighable)
  else if String.eqb smiles "UNMEASURED" then Returns (Some unmeasured)
  else if String.eqb smiles "^C" then Raises KeyboardInterrupt
  else Returns None.

Definition donors (mol : option molecule) : result error Z :=
  match mol with
  | Some unweighable => Returns 2
  | Some unmeasured => Returns 0
  | None => Raises ValueError
  end.

Definition acceptors (mol : option molecule) : result error Z :=
  match mol with
  | Some unweighable => Returns 3
  | Some unmeasured => Returns 0
  | None => Raises ValueError
  end.

Definition weight (mol : option molecule) : result error float :=
  match mol with
  | Some unweighable => Raises ValueError
  | Some unmeasured => Returns nan
  | None => Raises ValueError
  end.

Definition logp (mol : option molecule) : result error float :=
  match mol with
  | Some unweighable => Returns 1.5%float
  | Some unmeasured => Returns nan
  | None => Raises ValueError
  end.

Definition rdkit : Rdkit := {|
  Mol := molecule;
  LibError := error;
  derives_Exception := derives;
  MolFromSmiles := parse;
  NumHDonors := donors;
  NumHAcceptors := acceptors;
  MolWt := weight;
  MolLogP := logp
|}.

(** The interpreter's rendering of the floats above. *)
Definition repr (x : float) : string :=
  if (x =? 1.5)%float then "1.5" else "nan".

End Faulty.

(** Take hypotheses apart: conjunctions, alternatives, witnesses. *)
Ltac break_cases :=
  repeat match goal with
         | H : _ /\ _ |- _ => destruct H
         | H : _ \/ _ |- _ => destruct H
         | H : exists _, _ |- _ => destruct H
         end.

Lemma length_append_string (s t : string) :
  String.length (s ++ t) = (String.length s + String.length t)%nat.
Proof.
  induction s as [|c s IH]; simpl; [reflexivity | now rewrite IH].
Qed.

Lemma append_assoc_string (s t u : string) :
  ((s ++ t) ++ u)%string = (s ++ t ++ u)%string.
Proof.
  induction s as [|c s IH]; simpl; [reflexivity | now rewrite IH].
Qed.

(** Two strings that end in tails of equal length agree on the tails. *)
Lemma append_same_length_tail (s1 s2 t1 t2 : string) :
  String.length t1 = String.length t2 ->
  (s1 ++ t1)%string = (s2 ++ t2)%string ->
  t1 = t2.
Proof.
  intros Hlen.
  revert s2.
  induction s1 as [|c s1 IH]; intros [|c2 s2] Heq; simpl in Heq.
  - exact Heq.
  - apply (f_equal String.length) in Heq.
    simpl in Heq. rewrite length_append_string in Heq. lia.
  - apply (f_equal String.length) in Heq.
    simpl in Heq. rewrite length_append_string in Heq. lia.
  - injection Heq as _ Heq. exact (IH _ Heq).
Qed.

(** The donor and acceptor pass messages differ whatever the counts are. *)
Lemma donors_acceptors_distinct (x y : string) :
  (x ++ " H-bond donors")%string <> (y ++ " H-bond acceptors")%string.
Proof.
  intros Heq.
  change (x ++ " H-bond donors")%string
    with (x ++ (" H-bond " ++ "donors"))%string in Heq.
  change (y ++ " H-bond acceptors")%string
    with (y ++ (" H-bond acc" ++ "eptors"))%string in Heq.
  rewrite <- 2 append_assoc_string in Heq.
  apply append_same_length_tail in Heq; [discriminate | reflexivity].
Qed.

(** ** Running the three operations *)

Section Runs.

Variable rdkit : Rdkit.
Variable str_float : float -> string.

Abbreviation parse_call := (@call_MolFromSmiles (Mol rdkit)).

(** The parser raised: [lipinski_trial] lets the error through. *)
Lemma lipinski_trial_parse_raises smiles e log :
  MolFromSmiles rdkit smiles = Raises e ->
  lipinski_trial rdkit str_float smiles log
  = (Raises (Foreign e), log ++ [parse_call smiles]).
Proof.
  intros Hp.
  unfold lipinski_trial, bind, Chem_MolFromSmiles, lib_call.
  now rewrite Hp.
Qed.

(** The parser returned [None]: the guard of line 50 fires. *)
Lemma lipinski_trial_parse_None smiles log :
  MolFromSmiles rdkit smiles = Returns None ->
  lipinski_trial rdkit str_float smiles log
  = (Raises (Exception (smiles ++ " is not a valid SMILES string")%string),
     log ++ [parse_call smiles]).
Proof.
  intros Hp.
  unfold lipinski_trial, bind, Chem_MolFromSmiles, lib_call.
  now rewrite Hp.
Qed.

(** The parser and the four descriptors returned: the result is the two
    lists of [evaluateRules], after five library calls. *)
Lemma lipinski_trial_measured smiles m d a w p log :
  MolFromSmiles rdkit smiles = Returns (Some m) ->
  NumHDonors rdkit (Some m) = Returns d ->
  NumHAcceptors rdkit (Some m) = Returns a ->
  MolWt rdkit (Some m) = Returns w ->
  MolLogP rdkit (Some m) = Returns p ->
  lipinski_trial rdkit str_float smiles log
  = (Returns (passed_of (evaluateRules str_float d a w p),
              failed_of (evaluateRules str_float d a w p)),
     log ++ [parse_call smiles; call_NumHDonors (Some m);
             call_NumHAcceptors (Some m); call_MolWt (Some m);
             call_MolLogP (Some m)]).
Proof.
  intros Hp Hd Ha Hw Hl.
  unfold lipinski_trial, bind, Chem_MolFromSmiles, Lipinski_NumHDonors,
    Lipinski_NumHAcceptors, Descriptors_MolWt, Crippen_MolLogP, lib_call.
  rewrite Hp, Hd, Ha, Hw, Hl.
  unfold evaluateRules, passed_of, failed_of, donors_rule, acceptors_rule,
    weight_rule, logp_rule, ret.
  repeat rewrite <- app_assoc.
  destruct (d >? 5), (a >? 10), (float_ge w 500), (float_ge p 5);
    reflexivity.
Qed.

(** [lipinski_pass] is [lipinski_trial] followed by a test of [failed]. *)
Lemma lipinski_pass_unfold smiles log :
  lipinski_pass rdkit str_float smiles log
  = match lipinski_trial rdkit str_float smiles log with
    | (Returns (passed, failed), log') => (Returns (negb (truthy failed)), log')
    | (Raises e, log') => (Raises e, log')
    end.
Proof.
  unfold lipinski_pass, bind.
  destruct (lipinski_trial rdkit str_float smiles log) as [[[passed failed]|e] log'];
    [destruct failed|]; reflexivity.
Qed.

(** A returned result of [lipinski_trial] is always the complete one: the
    parser and all four descriptors returned. *)
Lemma lipinski_trial_returns_inv smiles log r :
  fst (lipinski_trial rdkit str_float smiles log) = Returns r ->
  exists m d a w p,
    MolFromSmiles rdkit smiles = Returns (Some m) /\
    NumHDonors rdkit (Some m) = Returns d /\
    NumHAcceptors rdkit (Some m) = Returns a /\
    MolWt rdkit (Some m) = Returns w /\
    MolLogP rdkit (Some m) = Returns p /\
    r = (passed_of (evaluateRules str_float d a w p),
         failed_of (evaluateRules str_float d a w p)).
Proof.
  destruct (MolFromSmiles rdkit smiles) as [[m|]|e] eqn:Hp.
  - destruct (NumHDonors rdkit (Some m)) as [d|e] eqn:Hd;
      [destruct (NumHAcceptors rdkit (Some m)) as [a|e] eqn:Ha;
       [destruct (MolWt rdkit (Some m)) as [w|e] eqn:Hw;
        [destruct (MolLogP rdkit (Some m)) as [p|e] eqn:Hl|]|]|].
    + rewrite (lipinski_trial_measured _ _ Hp Hd Ha Hw Hl). simpl.
      intros [= <-]. exists m, d, a, w, p. repeat split; assumption.
    + unfold lipinski_trial, bind, Chem_MolFromSmiles, Lipinski_NumHDonors,
        Lipinski_NumHAcceptors, Descriptors_MolWt, Crippen_MolLogP, lib_call.
      rewrite Hp, Hd, Ha, Hw, Hl. discriminate.
    + unfold lipinski_trial, bind, Chem_MolFromSmiles, Lipinski_NumHDonors,
        Lipinski_NumHAcceptors, Descriptors_MolWt, lib_call.
      rewrite Hp, Hd, Ha, Hw. discriminate.
    + unfold lipinski_trial, bind, Chem_MolFromSmiles, Lipinski_NumHDonors,
        Lipinski_NumHAcceptors, lib_call.
      rewrite Hp, Hd, Ha. discriminate.
    + unfold lipinski_trial, bind, Chem_MolFromSmiles, Lipinski_NumHDonors,
        lib_call.
      rewrite Hp, Hd. discriminate.
  - rewrite (lipinski_trial_parse_None _ _ Hp). discriminate.
  - rewrite (lipinski_trial_parse_raises _ _ Hp). discriminate.
Qed.

(** The three ways [log_partition_coefficient] can go. *)
Lemma log_partition_coefficient_parsed smiles mol log :
  MolFromSmiles rdkit smiles = Returns mol ->
  log_partition_coefficient rdkit smiles log
  = (match MolLogP rdkit mol with
     | Returns v => Returns v
     | Raises e => Raises (Foreign e)
     end,
     log ++ [parse_call smiles; call_MolLogP mol]).
Proof.
  intros Hp.
  unfold log_partition_coefficient, bind, try_except_Exception,
    Chem_MolFromSmiles, Crippen_MolLogP, lib_call.
  rewrite Hp, <- app_assoc. reflexivity.
Qed.

Lemma log_partition_coefficient_parse_raises smiles e log :
  MolFromSmiles rdkit smiles = Raises e ->
  log_partition_coefficient rdkit smiles log
  = (Raises (if derives_Exception rdkit e
             then SmilesError (smiles ++ " returns a None molecule")%string
             else Foreign e),
     log ++ [parse_call smiles]).
Proof.
  intros Hp.
  unfold log_partition_coefficient, bind, try_except_Exception,
    Chem_MolFromSmiles, lib_call, raise.
  rewrite Hp. simpl.
  destruct (derives_Exception rdkit e); reflexivity.
Qed.

(** *** The log is only ever extended *)

Lemma framed_ret {A : Type} (a : A) : framed (@ret rdkit A a).
Proof. intros log. unfold ret. simpl. now rewrite app_nil_r. Qed.

Lemma framed_raise {A : Type} (e : exn (LibError rdkit)) :
  framed (@raise rdkit A e).
Proof. intros log. unfold raise. simpl. now rewrite app_nil_r. Qed.

Lemma framed_lib_call {A : Type} (c : call (Mol rdkit))
    (r : result (LibError rdkit) A) :
  framed (lib_call rdkit c r).
Proof. intros log. reflexivity. Qed.

Lemma framed_bind {A B : Type} (m : Py rdkit A) (k : A -> Py rdkit B) :
  framed m -> (forall a, framed (k a)) -> framed (bind m k).
Proof.
  intros Hm Hk log. unfold bind.
  rewrite (Hm log).
  destruct (m []) as [[a|e] calls]; simpl.
  - rewrite (Hk a (log ++ calls)), (Hk a calls). simpl.
    now rewrite app_assoc.
  - reflexivity.
Qed.

Lemma framed_try_except_Exception {A : Type}
    (body : Py rdkit A) (handler : exn (LibError rdkit) -> Py rdkit A) :
  framed body -> (forall e, framed (handler e)) ->
  framed (try_except_Exception body handler).
Proof.
  intros Hb Hh log. unfold try_except_Exception.
  rewrite (Hb log).
  destruct (body []) as [[a|e] calls]; simpl.
  - reflexivity.
  - destruct (is_Exception (derives_Exception rdkit) e).
    + rewrite (Hh e (log ++ calls)), (Hh e calls). simpl.
      now rewrite app_assoc.
    + reflexivity.
Qed.

Lemma log_partition_coefficient_framed smiles :
  framed (log_partition_coefficient rdkit smiles).
Proof.
  unfold log_partition_coefficient.
  apply framed_bind.
  - apply framed_try_except_Exception.
    + apply framed_lib_call.
    + intros e. apply framed_raise.
  - intros mol. apply framed_lib_call.
Qed.

Lemma lipinski_trial_framed smiles :
  framed (lipinski_trial rdkit str_float smiles).
Proof.
  unfold lipinski_trial.
  apply framed_bind; [apply framed_lib_call|].
  intros [m|]; [|apply framed_raise].
  do 4 (apply framed_bind; [apply framed_lib_call|]; intros ?).
  destruct (_ >? 5), (_ >? 10), (float_ge _ 500), (float_ge _ 5);
    apply framed_ret.
Qed.

Lemma lipinski_pass_framed smiles :
  framed (lipinski_pass rdkit str_float smiles).
Proof.
  unfold lipinski_pass.
  apply framed_bind; [apply lipinski_trial_framed|].
  intros [passed failed].
  destruct (truthy failed); apply framed_ret.
Qed.

(** *** The parser is entered once *)

Lemma log_partition_coefficient_parses smiles :
  filter is_parse (snd (log_partition_coefficient rdkit smiles []))
  = [parse_call smiles].
Proof.
  destruct (MolFromSmiles rdkit smiles) as [mol|e] eqn:Hp.
  - now rewrite (log_partition_coefficient_parsed _ _ Hp).
  - now rewrite (log_partition_coefficient_parse_raises _ _ Hp).
Qed.

Lemma lipinski_trial_parses smiles :
  filter is_parse (snd (lipinski_trial rdkit str_float smiles []))
  = [parse_call smiles].
Proof.
  unfold lipinski_trial, bind, Chem_MolFromSmiles, Lipinski_NumHDonors,
    Lipinski_NumHAcceptors, Descriptors_MolWt, Crippen_MolLogP, lib_call,
    raise, ret.
  destruct (MolFromSmiles rdkit smiles) as [[m|]|e]; [|reflexivity..].
  destruct (NumHDonors rdkit (Some m)); [|reflexivity].
  destruct (NumHAcceptors rdkit (Some m)); [|reflexivity].
  destruct (MolWt rdkit (Some m)); [|reflexivity].
  destruct (MolLogP rdkit (Some m)); [|reflexivity].
  destruct (_ >? 5), (_ >? 10), (float_ge _ 500), (float_ge _ 5);
    reflexivity.
Qed.

Lemma lipinski_pass_same_log smiles log :
  snd (lipinski_pass rdkit str_float smiles log)
  = snd (lipinski_trial rdkit str_float smiles log).
Proof.
  rewrite lipinski_pass_unfold.
  now destruct (lipinski_trial rdkit str_float smiles log) as [[[passed failed]|e] log'].
Qed.

End Runs.

(** ** Outcomes and their messages *)

Lemma append_empty_r (s : string) : (s ++ "")%string = s.
Proof.
  induction s as [|c s IH]; simpl; [reflexivity | now rewrite IH].
Qed.

Lemma includes_at_end (pre sub : string) : includes sub (pre ++ sub).
Proof.
  exists pre, ""%string. now rewrite append_empty_r.
Qed.

Lemma includes_between (pre sub post : string) :
  includes sub (pre ++ sub ++ post).
Proof. now exists pre, post. Qed.

(** Every outcome lands in exactly one of the two lists. *)
Lemma passed_failed_length (os : list RuleOutcome) :
  (List.length (passed_of os) + List.length (failed_of os))%nat = List.length os.
Proof.
  unfold passed_of, failed_of.
  induction os as [|o os IH]; [reflexivity|].
  unfold is_pass, is_fail in *. simpl.
  destruct (status o); simpl; lia.
Qed.

Section RuleMessages.

Variable str_float : float -> string.

Lemma donors_rule_message (d : Z) :
  includes "H-bond donors" (message (donors_rule d)) /\
  includes (str_int d) (message (donors_rule d)).
Proof.
  unfold donors_rule. destruct (d >? 5); simpl message; split.
  - apply (includes_between "Over 5 " "H-bond donors" (", found " ++ str_int d)).
  - apply (includes_at_end "Over 5 H-bond donors, found ").
  - exists ("Found " ++ str_int d ++ " ")%string, ""%string.
    rewrite !append_assoc_string. reflexivity.
  - apply (includes_between "Found " (str_int d) " H-bond donors").
Qed.

Lemma acceptors_rule_message (a : Z) :
  includes "H-bond acceptors" (message (acceptors_rule a)) /\
  includes (str_int a) (message (acceptors_rule a)).
Proof.
  unfold acceptors_rule. destruct (a >? 10); simpl message; split.
  - apply (includes_between "Over 10 " "H-bond acceptors" (", found " ++ str_int a)).
  - apply (includes_at_end "Over 10 H-bond acceptors, found ").
  - exists ("Found " ++ str_int a ++ " ")%string, ""%string.
    rewrite !append_assoc_string. reflexivity.
  - apply (includes_between "Found " (str_int a) " H-bond acceptors").
Qed.

Lemma weight_rule_message (w : float) :
  includes "Molecular weight" (message (weight_rule str_float w)) /\
  includes (str_float w) (message (weight_rule str_float w)).
Proof.
  unfold weight_rule. destruct (float_ge w 500); simpl message; split.
  - apply (includes_between "" "Molecular weight"
             (" over 500, calculated " ++ str_float w)).
  - apply (includes_at_end "Molecular weight over 500, calculated ").
  - apply (includes_between "" "Molecular weight" (": " ++ str_float w)).
  - apply (includes_at_end "Molecular weight: ").
Qed.

Lemma logp_rule_message (p : float) :
  includes "Log partition coefficient" (message (logp_rule str_float p)) /\
  includes (str_float p) (message (logp_rule str_float p)).
Proof.
  unfold logp_rule. destruct (float_ge p 5); simpl message; split.
  - apply (includes_between "" "Log partition coefficient"
             (" over 5, calculated " ++ str_float p)).
  - apply (includes_at_end "Log partition coefficient over 5, calculated ").
  - apply (includes_between "" "Log partition coefficient" (": " ++ str_float p)).
  - apply (includes_at_end "Log partition coefficient: ").
Qed.

End RuleMessages.

(** The pass messages of the two counting rules never coincide. *)
Lemma found_donors_not_acceptors (x y : string) :
  ("Found " ++ x ++ " H-bond donors")%string
  <> ("Found " ++ y ++ " H-bond acceptors")%string.
Proof.
  intros Heq. simpl in Heq. injection Heq as Heq.
  exact (donors_acceptors_distinct _ _ Heq).
Qed.

(** On a string the parser rejects with [None], the two entry points never
    raise errors of one kind, whatever the library does with [None]:
    [lipinski_trial] raises [Exception], and [log_partition_coefficient]
    returns or raises what [Crippen.MolLogP] does. *)
Lemma None_never_one_kind (rdkit : Rdkit) (str_float : float -> string)
    (smiles : string) :
  MolFromSmiles rdkit smiles = Returns None ->
  ~ raise_one_kind rdkit str_float smiles.
Proof.
  intros Hp (e1 & e2 & H1 & H2 & Hkind).
  rewrite (log_partition_coefficient_parsed rdkit smiles [] Hp) in H1.
  rewrite (lipinski_trial_parse_None rdkit str_float smiles [] Hp) in H2.
  simpl in H1, H2.
  injection H2 as <-.
  destruct (MolLogP rdkit None); [discriminate|].
  injection H1 as <-. discriminate Hkind.
Qed.

(** ** The claims *)

Section Claims.

Variable rdkit : Rdkit.
Variable str_float : float -> string.

(** C1 (as amended).  When the parser returns [None] for [smiles],
    [lipinski_trial] raises the builtin [Exception] with the message
    "<smiles> is not a valid SMILES string", after the one parser call and
    before any descriptor is asked for.  That is not the kind
    [log_partition_coefficient] uses for a failed parse: when the parser
    raises an [Exception]-derived error on some input,
    [log_partition_coefficient] raises [SmilesError] carrying that input.  The
    module has two error kinds for an unparseable string, not one. *)
Theorem invalid_smiles_raises_Exception smiles log :
  MolFromSmiles rdkit smiles = Returns None ->
  lipinski_trial rdkit str_float smiles log
  = (Raises (Exception (smiles ++ " is not a valid SMILES string")%string),
     log ++ [call_MolFromSmiles smiles])
  /\ (forall smiles' e log',
        MolFromSmiles rdkit smiles' = Raises e ->
        derives_Exception rdkit e = true ->
        log_partition_coefficient rdkit smiles' log'
        = (Raises (SmilesError (smiles' ++ " returns a None molecule")%string),
           log' ++ [call_MolFromSmiles smiles']))
  /\ (forall msg msg',
        same_kind (@Exception (LibError rdkit) msg) (SmilesError msg') = false).
Proof.
  intros Hp. split; [|split].
  - exact (lipinski_trial_parse_None rdkit str_float smiles log Hp).
  - intros smiles' e log' Hp' He.
    rewrite (log_partition_coefficient_parse_raises rdkit smiles' log' Hp').
    now rewrite He.
  - reflexivity.
Qed.

(** C2.  When the parser returns [None], [log_partition_coefficient] does
    not raise [SmilesError]: the [try] only guards against a raising parser,
    so [None] goes on to [Crippen.MolLogP], and the caller gets whatever the
    library makes of it (its value, or its own error). *)
Theorem log_partition_coefficient_None_unguarded smiles log :
  MolFromSmiles rdkit smiles = Returns None ->
  log_partition_coefficient rdkit smiles log
  = (match MolLogP rdkit None with
     | Returns v => Returns v
     | Raises e => Raises (Foreign e)
     end,
     log ++ [call_MolFromSmiles smiles; call_MolLogP None])
  /\ (forall msg,
        fst (log_partition_coefficient rdkit smiles log)
        <> Raises (SmilesError msg)).
Proof.
  intros Hp.
  rewrite (log_partition_coefficient_parsed rdkit smiles log Hp).
  split; [reflexivity|].
  intros msg. simpl.
  destruct (MolLogP rdkit None); discriminate.
Qed.

(** C3.  For a string that parses and whose four descriptors are measured as
    [d], [a], [w], [p], [lipinski_trial] returns two lists in which: the
    donor failure message is present iff [d > 5] and the donor pass message
    iff [d <= 5]; the acceptor failure message iff [a > 10], its pass
    message iff [a <= 10]; the weight failure message iff [w >= 500] (as
    floats), its pass message iff not; the logP failure message iff
    [p >= 5], its pass message iff not.  So exactly 5 donors pass, a weight
    of exactly 500 fails and a logP of exactly 5 fails. *)
Theorem lipinski_trial_thresholds smiles m d a w p log :
  MolFromSmiles rdkit smiles = Returns (Some m) ->
  NumHDonors rdkit (Some m) = Returns d ->
  NumHAcceptors rdkit (Some m) = Returns a ->
  MolWt rdkit (Some m) = Returns w ->
  MolLogP rdkit (Some m) = Returns p ->
  exists passed failed,
    fst (lipinski_trial rdkit str_float smiles log) = Returns (passed, failed)
    /\ (In ("Over 5 H-bond donors, found " ++ str_int d)%string failed
         <-> d > 5)
    /\ (In ("Found " ++ str_int d ++ " H-bond donors")%string passed
         <-> d <= 5)
    /\ (In ("Over 10 H-bond acceptors, found " ++ str_int a)%string failed
         <-> a > 10)
    /\ (In ("Found " ++ str_int a ++ " H-bond acceptors")%string passed
         <-> a <= 10)
    /\ (In ("Molecular weight over 500, calculated " ++ str_float w)%string failed
         <-> float_ge w 500 = true)
    /\ (In ("Molecular weight: " ++ str_float w)%string passed
         <-> float_ge w 500 = false)
    /\ (In ("Log partition coefficient over 5, calculated " ++ str_float p)%string failed
         <-> float_ge p 5 = true)
    /\ (In ("Log partition coefficient: " ++ str_float p)%string passed
         <-> float_ge p 5 = false)
    /\ (d = 5 -> In ("Found " ++ str_int d ++ " H-bond donors")%string passed)
    /\ (w = 500%float ->
         In ("Molecular weight over 500, calculated " ++ str_float w)%string failed)
    /\ (p = 5%float ->
         In ("Log partition coefficient over 5, calculated " ++ str_float p)%string failed).
Proof.
  intros Hp Hd Ha Hw Hl.
  rewrite (lipinski_trial_measured rdkit str_float smiles log Hp Hd Ha Hw Hl).
  do 2 eexists. split; [reflexivity|].
  assert (Hfw : float_ge 500 500 = true) by reflexivity.
  assert (Hfp : float_ge 5 5 = true) by reflexivity.
  pose proof (found_donors_not_acceptors (str_int d) (str_int a)) as Hda.
  pose proof (found_donors_not_acceptors (str_int a) (str_int d)) as Had.
  pose proof (Zgt_cases d 5) as Cd.
  pose proof (Zgt_cases a 10) as Ca.
  unfold evaluateRules, donors_rule, acceptors_rule, weight_rule, logp_rule,
    passed_of, failed_of.
  destruct (d >? 5), (a >? 10), (float_ge w 500) eqn:Ew, (float_ge p 5) eqn:Ep;
    cbn [map filter is_pass is_fail status message In];
    repeat split; intros;
    repeat match goal with
           | H : _ \/ _ |- _ => destruct H
           | H : False |- _ => destruct H
           | H : @eq string _ _ |- _ => first [discriminate H | symmetry in H; contradiction | contradiction]
           end;
    subst; try lia; try congruence; auto.
Qed.

(** C4.  For a string that parses and whose four descriptors are measured,
    [lipinski_trial] returns the two lists of a sequence of exactly four
    outcomes, one per rule in the order donors, acceptors, weight, logP:
    [passed] holds the messages of the passed outcomes and [failed] those of
    the failed ones, each in that order, four messages in all, and the
    message of each rule names the rule and includes the measured value as
    Python prints it. *)
Theorem lipinski_trial_four_outcomes smiles m d a w p log :
  MolFromSmiles rdkit smiles = Returns (Some m) ->
  NumHDonors rdkit (Some m) = Returns d ->
  NumHAcceptors rdkit (Some m) = Returns a ->
  MolWt rdkit (Some m) = Returns w ->
  MolLogP rdkit (Some m) = Returns p ->
  exists o_donors o_acceptors o_weight o_logp passed failed,
    fst (lipinski_trial rdkit str_float smiles log) = Returns (passed, failed)
    /\ passed = passed_of [o_donors; o_acceptors; o_weight; o_logp]
    /\ failed = failed_of [o_donors; o_acceptors; o_weight; o_logp]
    /\ (List.length passed + List.length failed = 4)%nat
    /\ includes "H-bond donors" (message o_donors)
    /\ includes (str_int d) (message o_donors)
    /\ includes "H-bond acceptors" (message o_acceptors)
    /\ includes (str_int a) (message o_acceptors)
    /\ includes "Molecular weight" (message o_weight)
    /\ includes (str_float w) (message o_weight)
    /\ includes "Log partition coefficient" (message o_logp)
    /\ includes (str_float p) (message o_logp).
Proof.
  intros Hp Hd Ha Hw Hl.
  rewrite (lipinski_trial_measured rdkit str_float smiles log Hp Hd Ha Hw Hl).
  exists (donors_rule d), (acceptors_rule a), (weight_rule str_float w),
    (logp_rule str_float p).
  do 2 eexists. split; [reflexivity|].
  split; [reflexivity|]. split; [reflexivity|].
  split; [apply (passed_failed_length (evaluateRules str_float d a w p))|].
  pose proof (donors_rule_message d) as [? ?].
  pose proof (acceptors_rule_message a) as [? ?].
  pose proof (weight_rule_message str_float w) as [? ?].
  pose proof (logp_rule_message str_float p) as [? ?].
  repeat split; assumption.
Qed.

(** C5.  [lipinski_pass] makes exactly the library calls [lipinski_trial]
    makes; when [lipinski_trial] returns [(passed, failed)] it returns a
    boolean that is [True] iff [failed] is empty; and for a molecule whose
    descriptors are all measured it has asked for all four of them, whatever
    their values. *)
Theorem lipinski_pass_iff_no_failure smiles log :
  snd (lipinski_pass rdkit str_float smiles log)
  = snd (lipinski_trial rdkit str_float smiles log)
  /\ (forall passed failed,
        fst (lipinski_trial rdkit str_float smiles log) = Returns (passed, failed) ->
        exists b,
          fst (lipinski_pass rdkit str_float smiles log) = Returns b
          /\ (b = true <-> failed = []))
  /\ (forall m d a w p,
        MolFromSmiles rdkit smiles = Returns (Some m) ->
        NumHDonors rdkit (Some m) = Returns d ->
        NumHAcceptors rdkit (Some m) = Returns a ->
        MolWt rdkit (Some m) = Returns w ->
        MolLogP rdkit (Some m) = Returns p ->
        snd (lipinski_pass rdkit str_float smiles log)
        = log ++ [call_MolFromSmiles smiles; call_NumHDonors (Some m);
                  call_NumHAcceptors (Some m); call_MolWt (Some m);
                  call_MolLogP (Some m)]).
Proof.
  split; [apply lipinski_pass_same_log|]. split.
  - intros passed failed Hr.
    rewrite lipinski_pass_unfold.
    destruct (lipinski_trial rdkit str_float smiles log) as [[[passed' failed']|e] log'];
      simpl in Hr; [|discriminate].
    injection Hr as -> ->.
    exists (negb (truthy failed)). split; [reflexivity|].
    destruct failed; simpl; split; intros; congruence.
  - intros m d a w p Hp Hd Ha Hw Hl.
    rewrite lipinski_pass_same_log.
    now rewrite (lipinski_trial_measured rdkit str_float smiles log Hp Hd Ha Hw Hl).
Qed.

(** C6.  For a string that parses to a molecule whose logP the library
    reports as the finite float [v], [log_partition_coefficient] returns a
    finite float, equal to [v], after one parser call and one logP call. *)
Theorem log_partition_coefficient_value smiles m v log :
  MolFromSmiles rdkit smiles = Returns (Some m) ->
  MolLogP rdkit (Some m) = Returns v ->
  is_finite v = true ->
  exists r,
    log_partition_coefficient rdkit smiles log
    = (Returns r, log ++ [call_MolFromSmiles smiles; call_MolLogP (Some m)])
    /\ r = v /\ is_finite r = true.
Proof.
  intros Hp Hl Hfin. exists v.
  rewrite (log_partition_coefficient_parsed rdkit smiles log Hp), Hl.
  auto.
Qed.

(** C7.  Whatever error [lipinski_trial] raises on [smiles], [lipinski_pass]
    raises that very error, and has made the same library calls. *)
Theorem lipinski_pass_propagates smiles log e :
  fst (lipinski_trial rdkit str_float smiles log) = Raises e ->
  fst (lipinski_pass rdkit str_float smiles log) = Raises e
  /\ snd (lipinski_pass rdkit str_float smiles log)
     = snd (lipinski_trial rdkit str_float smiles log).
Proof.
  intros He. split; [|apply lipinski_pass_same_log].
  rewrite lipinski_pass_unfold.
  destruct (lipinski_trial rdkit str_float smiles log) as [[[passed failed]|e'] log'];
    simpl in *; [discriminate | now injection He as ->].
Qed.

(** C8.  No operation hands back part of a result.  Whenever
    [lipinski_trial] returns, the parser and all four descriptors returned
    and the result holds all four outcomes; whenever
    [log_partition_coefficient] returns, its value is the one the library
    reported for what the parser returned; whenever [lipinski_pass] returns,
    [lipinski_trial] returned its full result; and an operation that raises
    returns nothing. *)
Theorem no_partial_results smiles log :
  (forall r,
     fst (lipinski_trial rdkit str_float smiles log) = Returns r ->
     (List.length (fst r) + List.length (snd r) = 4)%nat
     /\ exists m d a w p,
          MolFromSmiles rdkit smiles = Returns (Some m)
          /\ NumHDonors rdkit (Some m) = Returns d
          /\ NumHAcceptors rdkit (Some m) = Returns a
          /\ MolWt rdkit (Some m) = Returns w
          /\ MolLogP rdkit (Some m) = Returns p
          /\ r = (passed_of (evaluateRules str_float d a w p),
                  failed_of (evaluateRules str_float d a w p)))
  /\ (forall v,
        fst (log_partition_coefficient rdkit smiles log) = Returns v ->
        exists mol,
          MolFromSmiles rdkit smiles = Returns mol
          /\ MolLogP rdkit mol = Returns v)
  /\ (forall b,
        fst (lipinski_pass rdkit str_float smiles log) = Returns b ->
        exists passed failed,
          fst (lipinski_trial rdkit str_float smiles log) = Returns (passed, failed)
          /\ (List.length passed + List.length failed = 4)%nat
          /\ b = negb (truthy failed))
  /\ (forall e,
        (fst (lipinski_trial rdkit str_float smiles log) = Raises e ->
         forall r, fst (lipinski_trial rdkit str_float smiles log) <> Returns r)
        /\ (fst (log_partition_coefficient rdkit smiles log) = Raises e ->
            forall v, fst (log_partition_coefficient rdkit smiles log) <> Returns v)
        /\ (fst (lipinski_pass rdkit str_float smiles log) = Raises e ->
            forall b, fst (lipinski_pass rdkit str_float smiles log) <> Returns b)).
Proof.
  assert (Hfull : forall r,
             fst (lipinski_trial rdkit str_float smiles log) = Returns r ->
             (List.length (fst r) + List.length (snd r) = 4)%nat
             /\ exists m d a w p,
                  MolFromSmiles rdkit smiles = Returns (Some m)
                  /\ NumHDonors rdkit (Some m) = Returns d
                  /\ NumHAcceptors rdkit (Some m) = Returns a
                  /\ MolWt rdkit (Some m) = Returns w
                  /\ MolLogP rdkit (Some m) = Returns p
                  /\ r = (passed_of (evaluateRules str_float d a w p),
                          failed_of (evaluateRules str_float d a w p))).
  { intros r Hr.
    destruct (lipinski_trial_returns_inv rdkit str_float smiles log Hr)
      as (m & d & a & w & p & Hp & Hd & Ha & Hw & Hl & ->).
    split.
    - apply (passed_failed_length (evaluateRules str_float d a w p)).
    - exists m, d, a, w, p. repeat split; assumption. }
  split; [exact Hfull|]. split; [|split].
  - intros v Hv.
    destruct (MolFromSmiles rdkit smiles) as [mol|e] eqn:Hp.
    + rewrite (log_partition_coefficient_parsed rdkit smiles log Hp) in Hv.
      simpl in Hv. exists mol. split; [reflexivity|].
      destruct (MolLogP rdkit mol); [congruence | discriminate].
    + rewrite (log_partition_coefficient_parse_raises rdkit smiles log Hp) in Hv.
      discriminate.
  - intros b Hb.
    rewrite lipinski_pass_unfold in Hb.
    destruct (lipinski_trial rdkit str_float smiles log)
      as [[[passed failed]|e] log'] eqn:Hrun; simpl in Hb; [|discriminate].
    exists passed, failed. split; [reflexivity|].
    split; [|congruence].
    apply (Hfull (passed, failed)). reflexivity.
  - intros e. repeat split; intros He x; rewrite He; discriminate.
Qed.

(** C9.  Each operation enters the parser exactly once, on its own
    argument, and does the same thing after any history of earlier calls:
    there are a result and a list of library calls, fixed by [smiles] and the
    library alone, such that from every log the operation gives that result
    and adds those calls.  Nothing is cached or carried over. *)
Theorem one_parse_per_call smiles :
  (exists r calls,
     filter is_parse calls = [call_MolFromSmiles smiles]
     /\ parses calls = 1%nat
     /\ forall log,
          log_partition_coefficient rdkit smiles log = (r, log ++ calls))
  /\ (exists r calls,
        filter is_parse calls = [call_MolFromSmiles smiles]
        /\ parses calls = 1%nat
        /\ forall log,
             lipinski_trial rdkit str_float smiles log = (r, log ++ calls))
  /\ (exists r calls,
        filter is_parse calls = [call_MolFromSmiles smiles]
        /\ parses calls = 1%nat
        /\ forall log,
             lipinski_pass rdkit str_float smiles log = (r, log ++ calls)).
Proof.
  split; [|split].
  - exists (fst (log_partition_coefficient rdkit smiles [])),
      (snd (log_partition_coefficient rdkit smiles [])).
    split; [|split].
    + apply log_partition_coefficient_parses.
    + unfold parses. now rewrite log_partition_coefficient_parses.
    + apply log_partition_coefficient_framed.
  - exists (fst (lipinski_trial rdkit str_float smiles [])),
      (snd (lipinski_trial rdkit str_float smiles [])).
    split; [|split].
    + apply lipinski_trial_parses.
    + unfold parses. now rewrite lipinski_trial_parses.
    + apply lipinski_trial_framed.
  - exists (fst (lipinski_pass rdkit str_float smiles [])),
      (snd (lipinski_pass rdkit str_float smiles [])).
    split; [|split].
    + rewrite lipinski_pass_same_log. apply lipinski_trial_parses.
    + unfold parses.
      now rewrite lipinski_pass_same_log, lipinski_trial_parses.
    + apply lipinski_pass_framed.
Qed.

(** C10.  Two strings whose molecules measure the same four descriptor
    values get the same two message lists from [lipinski_trial], whatever
    the strings, the molecules and the earlier calls are. *)
Theorem lipinski_trial_depends_on_descriptors
    smiles1 smiles2 m1 m2 d a w p log1 log2 :
  MolFromSmiles rdkit smiles1 = Returns (Some m1) ->
  MolFromSmiles rdkit smiles2 = Returns (Some m2) ->
  NumHDonors rdkit (Some m1) = Returns d ->
  NumHDonors rdkit (Some m2) = Returns d ->
  NumHAcceptors rdkit (Some m1) = Returns a ->
  NumHAcceptors rdkit (Some m2) = Returns a ->
  MolWt rdkit (Some m1) = Returns w ->
  MolWt rdkit (Some m2) = Returns w ->
  MolLogP rdkit (Some m1) = Returns p ->
  MolLogP rdkit (Some m2) = Returns p ->
  exists passed failed,
    fst (lipinski_trial rdkit str_float smiles1 log1) = Returns (passed, failed)
    /\ fst (lipinski_trial rdkit str_float smiles2 log2) = Returns (passed, failed).
Proof.
  intros Hp1 Hp2 Hd1 Hd2 Ha1 Ha2 Hw1 Hw2 Hl1 Hl2.
  rewrite (lipinski_trial_measured rdkit str_float smiles1 log1 Hp1 Hd1 Ha1 Hw1 Hl1).
  rewrite (lipinski_trial_measured rdkit str_float smiles2 log2 Hp2 Hd2 Ha2 Hw2 Hl2).
  do 2 eexists. split; reflexivity.
Qed.

End Claims.

(** ** The claims on the stand-in library *)

(** C1, as the specification states it, fails: on a string the parser
    rejects with [None], [lipinski_trial] raises [Exception] while
    [log_partition_coefficient] passes [None] on and ends with the library's
    own error. *)
Lemma invalid_smiles_two_error_kinds :
  MolFromSmiles Sample.rdkit "invalid_smiles_!!!" = Returns None
  /\ fst (log_partition_coefficient Sample.rdkit "invalid_smiles_!!!" [])
     = Raises (Foreign Sample.ArgumentError)
  /\ fst (lipinski_trial Sample.rdkit Sample.repr "invalid_smiles_!!!" [])
     = Raises (Exception "invalid_smiles_!!! is not a valid SMILES string")
  /\ ~ raise_one_kind Sample.rdkit Sample.repr "invalid_smiles_!!!".
Proof.
  repeat split.
  apply None_never_one_kind. reflexivity.
Qed.

(** On the stand-in library: a rejected string makes [lipinski_trial] raise
    [Exception]; a raising parser makes [log_partition_coefficient] raise
    [SmilesError]. *)
Lemma invalid_smiles_raises_Exception_sample :
  MolFromSmiles Sample.rdkit "invalid_smiles_!!!" = Returns None
  /\ lipinski_trial Sample.rdkit Sample.repr "invalid_smiles_!!!" []
     = (Raises (Exception "invalid_smiles_!!! is not a valid SMILES string"),
        [call_MolFromSmiles "invalid_smiles_!!!"])
  /\ log_partition_coefficient Sample.rdkit "!" []
     = (Raises (SmilesError "! returns a None molecule"),
        [call_MolFromSmiles "!"]).
Proof.
  destruct (invalid_smiles_raises_Exception Sample.rdkit Sample.repr
              "invalid_smiles_!!!" [] eq_refl) as (Htrial & Hlogp & _).
  split; [reflexivity|]. split.
  - exact Htrial.
  - exact (Hlogp "!"%string Sample.RuntimeError [] eq_refl eq_refl).
Defined.

(** On the stand-in library: a rejected string reaches [Crippen.MolLogP] as
    [None], and the library's [ArgumentError] comes out. *)
Lemma log_partition_coefficient_None_unguarded_sample :
  MolFromSmiles Sample.rdkit "invalid_smiles_!!!" = Returns None
  /\ log_partition_coefficient Sample.rdkit "invalid_smiles_!!!" []
     = (Raises (Foreign Sample.ArgumentError),
        [call_MolFromSmiles "invalid_smiles_!!!"; call_MolLogP None])
  /\ (forall msg,
        fst (log_partition_coefficient Sample.rdkit "invalid_smiles_!!!" [])
        <> Raises (SmilesError msg)).
Proof.
  split; [reflexivity|].
  exact (log_partition_coefficient_None_unguarded Sample.rdkit
           "invalid_smiles_!!!" [] eq_refl).
Defined.

(** The boundary molecule: 5 donors and 10 acceptors pass, a weight of 500
    and a logP of 5 fail. *)
Lemma lipinski_trial_thresholds_sample :
  exists passed failed,
    fst (lipinski_trial Sample.rdkit Sample.repr "BOUNDARY" [])
    = Returns (passed, failed)
    /\ In "Found 5 H-bond donors" passed
    /\ In "Found 10 H-bond acceptors" passed
    /\ In "Molecular weight over 500, calculated 500.0" failed
    /\ In "Log partition coefficient over 5, calculated 5.0" failed.
Proof.
  destruct (lipinski_trial_thresholds Sample.rdkit Sample.repr "BOUNDARY"
              (m := Sample.boundary) [] eq_refl eq_refl eq_refl eq_refl eq_refl)
    as (passed & failed & Hrun & _ & Hd & _ & Ha & Hw & _ & Hp & _).
  exists passed, failed. split; [exact Hrun|].
  split; [apply Hd; lia|].
  split; [apply Ha; lia|].
  split; [apply Hw; reflexivity | apply Hp; reflexivity].
Defined.

(** The heavy molecule fails every rule and still gets four messages. *)
Lemma lipinski_trial_four_outcomes_sample :
  exists passed failed,
    fst (lipinski_trial Sample.rdkit Sample.repr "HEAVY" [])
    = Returns (passed, failed)
    /\ (List.length passed + List.length failed = 4)%nat.
Proof.
  destruct (lipinski_trial_four_outcomes Sample.rdkit Sample.repr "HEAVY"
              (m := Sample.heavy) [] eq_refl eq_refl eq_refl eq_refl eq_refl)
    as (o1 & o2 & o3 & o4 & passed & failed & Hrun & _ & _ & Hlen & _).
  exists passed, failed. split; [exact Hrun | exact Hlen].
Defined.

(** Ethanol: the library's logP comes back, and it is finite. *)
Lemma log_partition_coefficient_value_sample :
  exists r,
    log_partition_coefficient Sample.rdkit "CCO" []
    = (Returns r, [call_MolFromSmiles "CCO"; call_MolLogP (Some Sample.ethanol)])
    /\ is_finite r = true.
Proof.
  destruct (log_partition_coefficient_value Sample.rdkit "CCO"
              (m := Sample.ethanol) [] eq_refl eq_refl eq_refl)
    as (r & Hrun & _ & Hfin).
  exists r. split; [exact Hrun | exact Hfin].
Defined.

(** A rejected string: [lipinski_pass] raises the [Exception] of
    [lipinski_trial]. *)
Lemma lipinski_pass_propagates_sample :
  fst (lipinski_pass Sample.rdkit Sample.repr "invalid_smiles_!!!" [])
  = Raises (Exception "invalid_smiles_!!! is not a valid SMILES string").
Proof.
  exact (proj1 (lipinski_pass_propagates Sample.rdkit Sample.repr
                  "invalid_smiles_!!!" [] eq_refl)).
Defined.

(** The two spellings of ethanol get the same lists, from different logs. *)
Lemma lipinski_trial_depends_on_descriptors_sample :
  fst (lipinski_trial Sample.rdkit Sample.repr "CCO" [])
  = fst (lipinski_trial Sample.rdkit Sample.repr "OCC" [call_MolFromSmiles "CCO"]).
Proof.
  destruct (lipinski_trial_depends_on_descriptors Sample.rdkit Sample.repr
              "CCO" "OCC" (m1 := Sample.ethanol) (m2 := Sample.ethanol_again)
              [] [call_MolFromSmiles "CCO"]
              eq_refl eq_refl eq_refl eq_refl eq_refl eq_refl eq_refl eq_refl
              eq_refl eq_refl)
    as (passed & failed & H1 & H2).
  exact (eq_trans H1 (eq_sym H2)).
Defined.

(** ** Further properties of the three operations *)

Section ErrorPaths.

Variable rdkit : Rdkit.
Variable str_float : float -> string.

(** A descriptor raised on a parsed molecule: [lipinski_trial] stops at that
    call and lets the library's error through. *)
Lemma lipinski_trial_donors_raise smiles m e log :
  MolFromSmiles rdkit smiles = Returns (Some m) ->
  NumHDonors rdkit (Some m) = Raises e ->
  lipinski_trial rdkit str_float smiles log
  = (Raises (Foreign e),
     log ++ [call_MolFromSmiles smiles; call_NumHDonors (Some m)]).
Proof.
  intros Hp Hd.
  unfold lipinski_trial, bind, Chem_MolFromSmiles, Lipinski_NumHDonors, lib_call.
  rewrite Hp, Hd, <- app_assoc. reflexivity.
Qed.

Lemma lipinski_trial_acceptors_raise smiles m d e log :
  MolFromSmiles rdkit smiles = Returns (Some m) ->
  NumHDonors rdkit (Some m) = Returns d ->
  NumHAcceptors rdkit (Some m) = Raises e ->
  lipinski_trial rdkit str_float smiles log
  = (Raises (Foreign e),
     log ++ [call_MolFromSmiles smiles; call_NumHDonors (Some m);
             call_NumHAcceptors (Some m)]).
Proof.
  intros Hp Hd Ha.
  unfold lipinski_trial, bind, Chem_MolFromSmiles, Lipinski_NumHDonors,
    Lipinski_NumHAcceptors, lib_call.
  rewrite Hp, Hd, Ha. repeat rewrite <- app_assoc. reflexivity.
Qed.

Lemma lipinski_trial_weight_raise smiles m d a e log :
  MolFromSmiles rdkit smiles = Returns (Some m) ->
  NumHDonors rdkit (Some m) = Returns d ->
  NumHAcceptors rdkit (Some m) = Returns a ->
  MolWt rdkit (Some m) = Raises e ->
  lipinski_trial rdkit str_float smiles log
  = (Raises (Foreign e),
     log ++ [call_MolFromSmiles smiles; call_NumHDonors (Some m);
             call_NumHAcceptors (Some m); call_MolWt (Some m)]).
Proof.
  intros Hp Hd Ha Hw.
  unfold lipinski_trial, bind, Chem_MolFromSmiles, Lipinski_NumHDonors,
    Lipinski_NumHAcceptors, Descriptors_MolWt, lib_call.
  rewrite Hp, Hd, Ha, Hw. repeat rewrite <- app_assoc. reflexivity.
Qed.

Lemma lipinski_trial_logp_raise smiles m d a w e log :
  MolFromSmiles rdkit smiles = Returns (Some m) ->
  NumHDonors rdkit (Some m) = Returns d ->
  NumHAcceptors rdkit (Some m) = Returns a ->
  MolWt rdkit (Some m) = Returns w ->
  MolLogP rdkit (Some m) = Raises e ->
  lipinski_trial rdkit str_float smiles log
  = (Raises (Foreign e),
     log ++ [call_MolFromSmiles smiles; call_NumHDonors (Some m);
             call_NumHAcceptors (Some m); call_MolWt (Some m);
             call_MolLogP (Some m)]).
Proof.
  intros Hp Hd Ha Hw Hl.
  unfold lipinski_trial, bind, Chem_MolFromSmiles, Lipinski_NumHDonors,
    Lipinski_NumHAcceptors, Descriptors_MolWt, Crippen_MolLogP, lib_call.
  rewrite Hp, Hd, Ha, Hw, Hl. repeat rewrite <- app_assoc. reflexivity.
Qed.

(** On a parsed molecule the outcome of [lipinski_trial] is fixed by
    [first_failure]: that error, or the full result. *)
Lemma lipinski_trial_parsed smiles m log :
  MolFromSmiles rdkit smiles = Returns (Some m) ->
  match first_failure rdkit m with
  | Some e => fst (lipinski_trial rdkit str_float smiles log) = Raises (Foreign e)
  | None => exists r, fst (lipinski_trial rdkit str_float smiles log) = Returns r
  end.
Proof.
  intros Hp. unfold first_failure.
  destruct (NumHDonors rdkit (Some m)) as [d|e] eqn:Hd.
  2: { now rewrite (lipinski_trial_donors_raise _ _ Hp Hd). }
  destruct (NumHAcceptors rdkit (Some m)) as [a|e] eqn:Ha.
  2: { now rewrite (lipinski_trial_acceptors_raise _ _ Hp Hd Ha). }
  destruct (MolWt rdkit (Some m)) as [w|e] eqn:Hw.
  2: { now rewrite (lipinski_trial_weight_raise _ _ Hp Hd Ha Hw). }
  destruct (MolLogP rdkit (Some m)) as [p|e] eqn:Hl.
  2: { now rewrite (lipinski_trial_logp_raise _ _ Hp Hd Ha Hw Hl). }
  rewrite (lipinski_trial_measured rdkit str_float smiles log Hp Hd Ha Hw Hl).
  eexists. reflexivity.
Qed.

End ErrorPaths.

(** [failed] is non-empty exactly when some threshold is violated, whatever
    the messages say. *)
Lemma truthy_failed_of (str_float : float -> string) d a w p :
  truthy (failed_of (evaluateRules str_float d a w p))
  = (d >? 5) || (a >? 10) || float_ge w 500 || float_ge p 5.
Proof.
  unfold evaluateRules, failed_of, donors_rule, acceptors_rule, weight_rule,
    logp_rule.
  destruct (d >? 5), (a >? 10), (float_ge w 500), (float_ge p 5); reflexivity.
Qed.

Lemma length_failed_of (str_float : float -> string) d a w p :
  List.length (failed_of (evaluateRules str_float d a w p)) = violations d a w p.
Proof.
  unfold evaluateRules, failed_of, donors_rule, acceptors_rule, weight_rule,
    logp_rule, violations.
  destruct (d >? 5), (a >? 10), (float_ge w 500), (float_ge p 5); reflexivity.
Qed.

Section Extras.

Variable rdkit : Rdkit.
Variable str_float : float -> string.

(** X1.  For a string that parses and whose four descriptors are measured
    as [d], [a], [w], [p], [lipinski_pass] returns, after the five library
    calls, a boolean that is [True] iff [d <= 5], [a <= 10], not [w >= 500]
    and not [p >= 5]. *)
Theorem lipinski_pass_thresholds smiles m d a w p log :
  MolFromSmiles rdkit smiles = Returns (Some m) ->
  NumHDonors rdkit (Some m) = Returns d ->
  NumHAcceptors rdkit (Some m) = Returns a ->
  MolWt rdkit (Some m) = Returns w ->
  MolLogP rdkit (Some m) = Returns p ->
  exists b,
    lipinski_pass rdkit str_float smiles log
    = (Returns b,
       log ++ [call_MolFromSmiles smiles; call_NumHDonors (Some m);
               call_NumHAcceptors (Some m); call_MolWt (Some m);
               call_MolLogP (Some m)])
    /\ (b = true <->
        d <= 5 /\ a <= 10 /\ float_ge w 500 = false /\ float_ge p 5 = false).
Proof.
  intros Hp Hd Ha Hw Hl.
  rewrite lipinski_pass_unfold.
  rewrite (lipinski_trial_measured rdkit str_float smiles log Hp Hd Ha Hw Hl).
  eexists. split; [reflexivity|].
  rewrite truthy_failed_of.
  pose proof (Zgt_cases d 5) as Cd.
  pose proof (Zgt_cases a 10) as Ca.
  destruct (d >? 5), (a >? 10), (float_ge w 500), (float_ge p 5); simpl;
    split; intros H; try discriminate; try reflexivity;
    try (destruct H as (? & ? & ? & ?); first [lia | discriminate]);
    repeat split; assumption.
Qed.

(** X2.  The errors of [lipinski_trial]: it never raises [SmilesError]; it
    raises the builtin [Exception] exactly when the parser returns [None],
    with the message "<smiles> is not a valid SMILES string"; it raises a
    library error [e] exactly when the parser raised [e] or the first failing
    descriptor call on the parsed molecule raised [e], in both cases
    unwrapped.  [lipinski_pass] raises exactly the same errors. *)
Theorem lipinski_trial_errors smiles log :
  (forall msg,
     fst (lipinski_trial rdkit str_float smiles log) <> Raises (SmilesError msg))
  /\ (forall msg,
        fst (lipinski_trial rdkit str_float smiles log) = Raises (Exception msg)
        <-> MolFromSmiles rdkit smiles = Returns None
            /\ msg = (smiles ++ " is not a valid SMILES string")%string)
  /\ (forall e,
        fst (lipinski_trial rdkit str_float smiles log) = Raises (Foreign e)
        <-> MolFromSmiles rdkit smiles = Raises e
            \/ exists m,
                 MolFromSmiles rdkit smiles = Returns (Some m)
                 /\ first_failure rdkit m = Some e)
  /\ (forall e,
        fst (lipinski_pass rdkit str_float smiles log) = Raises e
        <-> fst (lipinski_trial rdkit str_float smiles log) = Raises e).
Proof.
  assert (Hpass : forall e,
             fst (lipinski_pass rdkit str_float smiles log) = Raises e
             <-> fst (lipinski_trial rdkit str_float smiles log) = Raises e).
  { intros e. rewrite lipinski_pass_unfold.
    destruct (lipinski_trial rdkit str_float smiles log)
      as [[[passed failed]|e'] log']; simpl; split; intros H;
      first [discriminate | now injection H as ->]. }
  refine ((fun H : _ /\ _ /\ _ =>
             conj (proj1 H)
               (conj (proj1 (proj2 H)) (conj (proj2 (proj2 H)) Hpass))) _).
  clear Hpass.
  destruct (MolFromSmiles rdkit smiles) as [[m|]|e0] eqn:Hp.
  - pose proof (lipinski_trial_parsed rdkit str_float smiles log Hp) as Hrun.
    destruct (first_failure rdkit m) as [e1|] eqn:Hff;
      [|destruct Hrun as [r Hrun]]; rewrite Hrun;
      repeat split; intros; break_cases; try congruence.
    right. exists m. split; congruence.
  - rewrite (lipinski_trial_parse_None rdkit str_float smiles log Hp). simpl.
    repeat split; intros; break_cases; congruence.
  - rewrite (lipinski_trial_parse_raises rdkit str_float smiles log Hp). simpl.
    repeat split; intros; break_cases; try congruence.
    left. congruence.
Qed.

(** X3.  When a descriptor call raises on the parsed molecule,
    [lipinski_trial] raises that error and the calls end there: the
    descriptors that come later in lines 53-56 are never asked for. *)
Theorem descriptor_failure_stops smiles m log :
  MolFromSmiles rdkit smiles = Returns (Some m) ->
  (forall e,
     NumHDonors rdkit (Some m) = Raises e ->
     lipinski_trial rdkit str_float smiles log
     = (Raises (Foreign e),
        log ++ [call_MolFromSmiles smiles; call_NumHDonors (Some m)]))
  /\ (forall d e,
        NumHDonors rdkit (Some m) = Returns d ->
        NumHAcceptors rdkit (Some m) = Raises e ->
        lipinski_trial rdkit str_float smiles log
        = (Raises (Foreign e),
           log ++ [call_MolFromSmiles smiles; call_NumHDonors (Some m);
                   call_NumHAcceptors (Some m)]))
  /\ (forall d a e,
        NumHDonors rdkit (Some m) = Returns d ->
        NumHAcceptors rdkit (Some m) = Returns a ->
        MolWt rdkit (Some m) = Raises e ->
        lipinski_trial rdkit str_float smiles log
        = (Raises (Foreign e),
           log ++ [call_MolFromSmiles smiles; call_NumHDonors (Some m);
                   call_NumHAcceptors (Some m); call_MolWt (Some m)]))
  /\ (forall d a w e,
        NumHDonors rdkit (Some m) = Returns d ->
        NumHAcceptors rdkit (Some m) = Returns a ->
        MolWt rdkit (Some m) = Returns w ->
        MolLogP rdkit (Some m) = Raises e ->
        lipinski_trial rdkit str_float smiles log
        = (Raises (Foreign e),
           log ++ [call_MolFromSmiles smiles; call_NumHDonors (Some m);
                   call_NumHAcceptors (Some m); call_MolWt (Some m);
                   call_MolLogP (Some m)])).
Proof.
  intros Hp. split; [|split; [|split]].
  - intros e. now apply lipinski_trial_donors_raise.
  - intros d e. now apply lipinski_trial_acceptors_raise.
  - intros d a e. now apply lipinski_trial_weight_raise.
  - intros d a w e. now apply lipinski_trial_logp_raise.
Qed.

(** X4.  The errors of [log_partition_coefficient]: it never raises the
    builtin [Exception]; it raises [SmilesError] exactly when the parser
    raised an [Exception]-derived error, with the message
    "<smiles> returns a None molecule"; it raises a library error [e]
    exactly when the parser raised [e] and [e] is not [Exception]-derived, or
    [Crippen.MolLogP] raised [e] on what the parser returned (the call is
    outside the [try]). *)
Theorem log_partition_coefficient_errors smiles log :
  (forall msg,
     fst (log_partition_coefficient rdkit smiles log) <> Raises (Exception msg))
  /\ (forall msg,
        fst (log_partition_coefficient rdkit smiles log) = Raises (SmilesError msg)
        <-> exists e,
              MolFromSmiles rdkit smiles = Raises e
              /\ derives_Exception rdkit e = true
              /\ msg = (smiles ++ " returns a None molecule")%string)
  /\ (forall e,
        fst (log_partition_coefficient rdkit smiles log) = Raises (Foreign e)
        <-> (MolFromSmiles rdkit smiles = Raises e
             /\ derives_Exception rdkit e = false)
            \/ exists mol,
                 MolFromSmiles rdkit smiles = Returns mol
                 /\ MolLogP rdkit mol = Raises e).
Proof.
  destruct (MolFromSmiles rdkit smiles) as [mol|e0] eqn:Hp.
  - rewrite (log_partition_coefficient_parsed rdkit smiles log Hp). simpl.
    destruct (MolLogP rdkit mol) as [v|e1] eqn:Hl;
      repeat split; intros; break_cases; try congruence.
    right. exists mol. split; congruence.
  - rewrite (log_partition_coefficient_parse_raises rdkit smiles log Hp). simpl.
    destruct (derives_Exception rdkit e0) eqn:He;
      repeat split; intros; break_cases; try congruence.
    + exists e0. repeat split; congruence.
    + left. split; congruence.
Qed.

(** X5.  For a parsed molecule with measured descriptors, [failed] holds as
    many messages as thresholds are violated, and [passed] the remaining
    ones of the four. *)
Theorem lipinski_trial_failed_count smiles m d a w p log :
  MolFromSmiles rdkit smiles = Returns (Some m) ->
  NumHDonors rdkit (Some m) = Returns d ->
  NumHAcceptors rdkit (Some m) = Returns a ->
  MolWt rdkit (Some m) = Returns w ->
  MolLogP rdkit (Some m) = Returns p ->
  exists passed failed,
    fst (lipinski_trial rdkit str_float smiles log) = Returns (passed, failed)
    /\ List.length failed = violations d a w p
    /\ List.length passed = (4 - violations d a w p)%nat.
Proof.
  intros Hp Hd Ha Hw Hl.
  rewrite (lipinski_trial_measured rdkit str_float smiles log Hp Hd Ha Hw Hl).
  do 2 eexists. split; [reflexivity|].
  pose proof (passed_failed_length (evaluateRules str_float d a w p)) as Hlen.
  rewrite length_failed_of in *. simpl in Hlen.
  split; [reflexivity | lia].
Qed.

(** X6.  A string that passes the gate has a logP below the threshold as
    [log_partition_coefficient] computes it: when [lipinski_pass] returns
    [True], [log_partition_coefficient] returns a value [v] (from any log)
    for which [v >= 5] is false. *)
Theorem lipinski_pass_bounds_logp smiles log log' :
  fst (lipinski_pass rdkit str_float smiles log) = Returns true ->
  exists v,
    fst (log_partition_coefficient rdkit smiles log') = Returns v
    /\ float_ge v 5 = false.
Proof.
  intros Hpass.
  rewrite lipinski_pass_unfold in Hpass.
  destruct (lipinski_trial rdkit str_float smiles log)
    as [[[passed failed]|e] log1] eqn:Hrun; simpl in Hpass; [|discriminate].
  assert (Hr : fst (lipinski_trial rdkit str_float smiles log)
               = Returns (passed, failed)) by now rewrite Hrun.
  destruct (lipinski_trial_returns_inv rdkit str_float smiles log Hr)
    as (m & d & a & w & p & Hp & Hd & Ha & Hw & Hl & [= -> ->]).
  rewrite truthy_failed_of in Hpass.
  exists p.
  rewrite (log_partition_coefficient_parsed rdkit smiles log' Hp), Hl.
  split; [reflexivity|].
  destruct (float_ge p 5); [|reflexivity].
  injection Hpass as Hpass.
  rewrite orb_true_r in Hpass. discriminate.
Qed.

End Extras.

(** X7.  The verdict of [lipinski_pass], the error it raises and the calls
    it makes do not depend on how floats are printed. *)
Theorem lipinski_pass_ignores_formatting
    (rdkit : Rdkit) (f g : float -> string) smiles log :
  lipinski_pass rdkit f smiles log = lipinski_pass rdkit g smiles log.
Proof.
  rewrite 2 lipinski_pass_unfold.
  destruct (MolFromSmiles rdkit smiles) as [[m|]|e0] eqn:Hp.
  - destruct (NumHDonors rdkit (Some m)) as [d|e] eqn:Hd.
    2: { now rewrite 2 (lipinski_trial_donors_raise _ _ _ _ Hp Hd). }
    destruct (NumHAcceptors rdkit (Some m)) as [a|e] eqn:Ha.
    2: { now rewrite 2 (lipinski_trial_acceptors_raise _ _ _ _ Hp Hd Ha). }
    destruct (MolWt rdkit (Some m)) as [w|e] eqn:Hw.
    2: { now rewrite 2 (lipinski_trial_weight_raise _ _ _ _ Hp Hd Ha Hw). }
    destruct (MolLogP rdkit (Some m)) as [p|e] eqn:Hl.
    2: { now rewrite 2 (lipinski_trial_logp_raise _ _ _ _ Hp Hd Ha Hw Hl). }
    rewrite 2 (lipinski_trial_measured _ _ _ _ Hp Hd Ha Hw Hl).
    now rewrite 2 truthy_failed_of.
  - now rewrite 2 (lipinski_trial_parse_None _ _ _ _ Hp).
  - now rewrite 2 (lipinski_trial_parse_raises _ _ _ _ Hp).
Qed.

(** ** Messages and the values they carry *)

Lemma append_cancel_r (s1 s2 t : string) :
  (s1 ++ t)%string = (s2 ++ t)%string -> s1 = s2.
Proof.
  revert s2.
  induction s1 as [|c s1 IH]; intros [|c2 s2] Heq; simpl in Heq.
  - reflexivity.
  - apply (f_equal String.length) in Heq.
    simpl in Heq. rewrite length_append_string in Heq. lia.
  - apply (f_equal String.length) in Heq.
    simpl in Heq. rewrite length_append_string in Heq. lia.
  - injection Heq as -> Heq. now rewrite (IH _ Heq).
Qed.

(** The numeral of a Python int reads back as that int. *)
Lemma str_int_reads_back (n : Z) :
  option_map Z.of_int (NilZero.int_of_string (str_int n)) = Some n.
Proof.
  unfold str_int.
  rewrite NilZero.isi.
  - simpl. now rewrite DecimalZ.of_to.
  - destruct n; simpl; try discriminate.
    intros [= H]. exact (DecimalPos.Unsigned.to_uint_nonnil _ H).
  - destruct n; simpl; try discriminate.
    intros [= H]. exact (DecimalPos.Unsigned.to_uint_nonnil _ H).
Qed.

Lemma str_int_inj (n1 n2 : Z) : str_int n1 = str_int n2 -> n1 = n2.
Proof.
  intros Heq.
  pose proof (str_int_reads_back n1) as H1.
  rewrite Heq, str_int_reads_back in H1. congruence.
Qed.

(** ** Floats that are not numbers *)

Lemma SFcompare_refl (f : SpecFloat.spec_float) :
  f <> SpecFloat.S754_nan -> SpecFloat.SFcompare f f = Some Eq.
Proof.
  destruct f as [s|s| |s m e]; intros H; try congruence; simpl.
  - reflexivity.
  - now destruct s.
  - destruct s; rewrite Z.compare_refl, Pos.compare_cont_refl; reflexivity.
Qed.

Lemma is_nan_Prim2SF (x : float) :
  is_nan x = true -> FloatOps.Prim2SF x = SpecFloat.S754_nan.
Proof.
  unfold is_nan. rewrite FloatAxioms.eqb_spec. unfold SpecFloat.SFeqb.
  intros H.
  destruct (FloatOps.Prim2SF x) eqn:E; try reflexivity;
    rewrite SFcompare_refl in H by discriminate; discriminate.
Qed.

(** No comparison with a NaN holds. *)
Lemma float_ge_nan (x n : float) : is_nan x = true -> float_ge x n = false.
Proof.
  intros H. unfold float_ge.
  rewrite FloatAxioms.leb_spec, (is_nan_Prim2SF _ H).
  unfold SpecFloat.SFleb. now destruct (FloatOps.Prim2SF n).
Qed.

Section Messages.

Variable rdkit : Rdkit.
Variable str_float : float -> string.

(** X8.  For a parsed molecule with measured descriptors, no message occurs
    twice in the result: the messages of [passed] and [failed] together are
    pairwise different, whatever the measured values are. *)
Theorem lipinski_trial_messages_distinct smiles m d a w p log :
  MolFromSmiles rdkit smiles = Returns (Some m) ->
  NumHDonors rdkit (Some m) = Returns d ->
  NumHAcceptors rdkit (Some m) = Returns a ->
  MolWt rdkit (Some m) = Returns w ->
  MolLogP rdkit (Some m) = Returns p ->
  exists passed failed,
    fst (lipinski_trial rdkit str_float smiles log) = Returns (passed, failed)
    /\ NoDup (passed ++ failed).
Proof.
  intros Hp Hd Ha Hw Hl.
  rewrite (lipinski_trial_measured rdkit str_float smiles log Hp Hd Ha Hw Hl).
  do 2 eexists. split; [reflexivity|].
  pose proof (found_donors_not_acceptors (str_int d) (str_int a)) as Hda.
  pose proof (not_eq_sym Hda) as Had.
  unfold evaluateRules, donors_rule, acceptors_rule, weight_rule, logp_rule,
    passed_of, failed_of.
  destruct (d >? 5), (a >? 10), (float_ge w 500), (float_ge p 5);
    cbn [map filter is_pass is_fail status message app];
    repeat (constructor;
            [cbn [In]; intros H; break_cases;
             first [discriminate | contradiction] |]);
    constructor.
Qed.

(** X9.  The result tells the two counts: when two strings, measured as
    [d1], [a1], ... and [d2], [a2], ..., get the same pair of lists from
    [lipinski_trial], then [d1 = d2] and [a1 = a2]. *)
Theorem lipinski_trial_result_tells_counts
    smiles1 smiles2 m1 m2 d1 d2 a1 a2 w1 w2 p1 p2 log1 log2 :
  MolFromSmiles rdkit smiles1 = Returns (Some m1) ->
  MolFromSmiles rdkit smiles2 = Returns (Some m2) ->
  NumHDonors rdkit (Some m1) = Returns d1 ->
  NumHDonors rdkit (Some m2) = Returns d2 ->
  NumHAcceptors rdkit (Some m1) = Returns a1 ->
  NumHAcceptors rdkit (Some m2) = Returns a2 ->
  MolWt rdkit (Some m1) = Returns w1 ->
  MolWt rdkit (Some m2) = Returns w2 ->
  MolLogP rdkit (Some m1) = Returns p1 ->
  MolLogP rdkit (Some m2) = Returns p2 ->
  fst (lipinski_trial rdkit str_float smiles1 log1)
  = fst (lipinski_trial rdkit str_float smiles2 log2) ->
  d1 = d2 /\ a1 = a2.
Proof.
  intros Hp1 Hp2 Hd1 Hd2 Ha1 Ha2 Hw1 Hw2 Hl1 Hl2.
  rewrite (lipinski_trial_measured rdkit str_float smiles1 log1 Hp1 Hd1 Ha1 Hw1 Hl1).
  rewrite (lipinski_trial_measured rdkit str_float smiles2 log2 Hp2 Hd2 Ha2 Hw2 Hl2).
  simpl fst. intros [= Hpassed Hfailed].
  pose proof (found_donors_not_acceptors (str_int d1) (str_int a2)) as N1.
  pose proof (found_donors_not_acceptors (str_int d2) (str_int a1)) as N2.
  unfold evaluateRules, donors_rule, acceptors_rule, weight_rule, logp_rule,
    passed_of, failed_of in Hpassed, Hfailed.
  destruct (d1 >? 5), (a1 >? 10), (float_ge w1 500), (float_ge p1 5),
    (d2 >? 5), (a2 >? 10), (float_ge w2 500), (float_ge p2 5);
    cbn [map filter is_pass is_fail status message] in Hpassed, Hfailed;
    try discriminate Hpassed; try discriminate Hfailed;
    repeat match goal with
           | H : _ :: _ = _ :: _ |- _ =>
               first [injection H as ? H | injection H as H]
           end;
    try solve [match goal with
               | H : @eq string _ _ |- _ => discriminate H
               end];
    try solve [exfalso; first [apply N1; assumption
                              | apply N2; symmetry; assumption]];
    split; apply str_int_inj;
    first [assumption | eapply append_cancel_r; eassumption].
Qed.

(** X10.  A descriptor that is NaN never fails its rule: for a parsed
    molecule with measured descriptors, a NaN weight puts the weight pass
    message into [passed], a NaN logP the logP pass message, and when both
    are NaN and the counts are within bounds [lipinski_pass] returns
    [True]. *)
Theorem nan_descriptor_passes smiles m d a w p log :
  MolFromSmiles rdkit smiles = Returns (Some m) ->
  NumHDonors rdkit (Some m) = Returns d ->
  NumHAcceptors rdkit (Some m) = Returns a ->
  MolWt rdkit (Some m) = Returns w ->
  MolLogP rdkit (Some m) = Returns p ->
  exists passed failed,
    fst (lipinski_trial rdkit str_float smiles log) = Returns (passed, failed)
    /\ (is_nan w = true ->
        In ("Molecular weight: " ++ str_float w)%string passed)
    /\ (is_nan p = true ->
        In ("Log partition coefficient: " ++ str_float p)%string passed)
    /\ (is_nan w = true -> is_nan p = true -> d <= 5 -> a <= 10 ->
        fst (lipinski_pass rdkit str_float smiles log) = Returns true).
Proof.
  intros Hp Hd Ha Hw Hl.
  rewrite lipinski_pass_unfold.
  rewrite (lipinski_trial_measured rdkit str_float smiles log Hp Hd Ha Hw Hl).
  do 2 eexists. split; [reflexivity|].
  split; [|split].
  - intros Hnan.
    unfold evaluateRules, weight_rule, donors_rule, acceptors_rule, logp_rule,
      passed_of.
    rewrite (float_ge_nan w 500 Hnan).
    destruct (d >? 5), (a >? 10), (float_ge p 5);
      cbn [map filter is_pass status message In]; auto.
  - intros Hnan.
    unfold evaluateRules, weight_rule, donors_rule, acceptors_rule, logp_rule,
      passed_of.
    rewrite (float_ge_nan p 5 Hnan).
    destruct (d >? 5), (a >? 10), (float_ge w 500);
      cbn [map filter is_pass status message In]; auto 6.
  - intros Hw' Hp' Hd' Ha'. simpl.
    rewrite truthy_failed_of, (float_ge_nan w 500 Hw'), (float_ge_nan p 5 Hp').
    pose proof (Zgt_cases d 5) as Cd.
    pose proof (Zgt_cases a 10) as Ca.
    destruct (d >? 5), (a >? 10); first [lia | reflexivity].
Qed.

End Messages.

(** ** The further properties on the stand-in libraries *)

(** Ethanol passes the gate. *)
Lemma lipinski_pass_thresholds_sample :
  fst (lipinski_pass Sample.rdkit Sample.repr "CCO" []) = Returns true.
Proof.
  destruct (lipinski_pass_thresholds Sample.rdkit Sample.repr "CCO"
              (m := Sample.ethanol) [] eq_refl eq_refl eq_refl eq_refl eq_refl)
    as (b & Hrun & Hiff).
  rewrite Hrun. simpl. f_equal.
  apply Hiff. repeat split; first [lia | reflexivity].
Defined.

(** The weight of the unweighable molecule is asked for and raises; logP is
    never asked for. *)
Lemma descriptor_failure_stops_sample :
  lipinski_trial Faulty.rdkit Faulty.repr "UNWEIGHABLE" []
  = (Raises (Foreign Faulty.ValueError),
     [call_MolFromSmiles "UNWEIGHABLE"; call_NumHDonors (Some Faulty.unweighable);
      call_NumHAcceptors (Some Faulty.unweighable);
      call_MolWt (Some Faulty.unweighable)]).
Proof.
  destruct (descriptor_failure_stops Faulty.rdkit Faulty.repr "UNWEIGHABLE"
              (m := Faulty.unweighable) [] eq_refl) as (_ & _ & Hweight & _).
  exact (Hweight 2 3 Faulty.ValueError eq_refl eq_refl eq_refl).
Defined.

(** The boundary molecule violates two thresholds. *)
Lemma lipinski_trial_failed_count_sample :
  exists passed failed,
    fst (lipinski_trial Sample.rdkit Sample.repr "BOUNDARY" [])
    = Returns (passed, failed)
    /\ List.length failed = 2%nat /\ List.length passed = 2%nat.
Proof.
  exact (lipinski_trial_failed_count Sample.rdkit Sample.repr "BOUNDARY"
           (m := Sample.boundary) [] eq_refl eq_refl eq_refl eq_refl eq_refl).
Defined.

(** Ethanol passes the gate, and its logP is below 5. *)
Lemma lipinski_pass_bounds_logp_sample :
  exists v,
    fst (log_partition_coefficient Sample.rdkit "CCO" []) = Returns v
    /\ float_ge v 5 = false.
Proof.
  exact (lipinski_pass_bounds_logp Sample.rdkit Sample.repr "CCO" [] []
           eq_refl).
Defined.

(** The four failure messages of the heavy molecule are all different. *)
Lemma lipinski_trial_messages_distinct_sample :
  exists passed failed,
    fst (lipinski_trial Sample.rdkit Sample.repr "HEAVY" [])
    = Returns (passed, failed)
    /\ NoDup (passed ++ failed).
Proof.
  exact (lipinski_trial_messages_distinct Sample.rdkit Sample.repr "HEAVY"
           (m := Sample.heavy) [] eq_refl eq_refl eq_refl eq_refl eq_refl).
Defined.

(** The two spellings of ethanol get the same lists, and have the same
    counts. *)
Lemma lipinski_trial_result_tells_counts_sample :
  fst (lipinski_trial Sample.rdkit Sample.repr "CCO" [])
  = fst (lipinski_trial Sample.rdkit Sample.repr "OCC" [])
  /\ 1 = 1 /\ 1 = 1.
Proof.
  split; [reflexivity|].
  exact (lipinski_trial_result_tells_counts Sample.rdkit Sample.repr
           "CCO" "OCC" (m1 := Sample.ethanol) (m2 := Sample.ethanol_again)
           [] [] eq_refl eq_refl eq_refl eq_refl eq_refl eq_refl eq_refl
           eq_refl eq_refl eq_refl eq_refl).
Defined.

(** A molecule whose weight and logP are NaN passes the gate. *)
Lemma nan_descriptor_passes_sample :
  fst (lipinski_pass Faulty.rdkit Faulty.repr "UNMEASURED" []) = Returns true.
Proof.
  destruct (nan_descriptor_passes Faulty.rdkit Faulty.repr "UNMEASURED"
              (m := Faulty.unmeasured) [] eq_refl eq_refl eq_refl eq_refl eq_refl)
    as (passed & failed & _ & _ & _ & Hpass).
  apply Hpass; first [reflexivity | lia].
Defined.
